(** * sounds.h: the placeholder sound table and its resolver

    A shallow embedding of [src/sounds.h]: the static constant byte vector
    [ding_dong_raw] and the accessor [get_sound], which maps a name to a
    pointer to that vector or to the null pointer.

    The embedding keeps what the C++ code has:
    - a [std::string] is a sequence of 8-bit characters of any length and
      content (embedded NUL characters included): Rocq's [string];
    - a [std::vector<uint8_t>] is a [list byte];
    - a [const std::vector<uint8_t>*] is either [nullptr] or the address of an
      object of the program's memory, so that two results can be compared as
      pointers and read through;
    - a call runs in a program state (the memory) and ends in an outcome:
      a normal return, an exception, an abort or undefined behaviour.

    Calls are sequential here: one call runs from start to end in the state
    the previous one left. *)

From Stdlib Require Import ZArith.
From Stdlib.Strings Require Import Ascii String Byte.
From stdpp Require Import gmap strings list relations.

Local Open Scope string_scope.
Local Open Scope Z_scope.

(** ** The parts of the C++ library the header uses *)

Module CxxString.

(** [std::char_traits<char>::lt]: characters compare as [unsigned char]. *)
Definition char_code (c : ascii) : Z := Z.of_N (N_of_ascii c).

(** [std::char_traits<char>::compare(s, t, n)]: the sign of the first
    difference among the first [n] characters, [0] when there is none. *)
Fixpoint traits_compare (s t : string) (n : nat) : Z :=
  match n, s, t with
  | S n', String a s', String b t' =>
      if char_code a <? char_code b then -1
      else if char_code b <? char_code a then 1
      else traits_compare s' t' n'
  | _, _, _ => 0
  end.

(** [std::string::compare] with a C string argument: compare the common
    prefix, and when it is equal, the sizes. The literal is given by its characters
    up to the terminating NUL, which [traits::length] stops at. *)
Definition compare (s lit : string) : Z :=
  let rlen := Nat.min (String.length s) (String.length lit) in
  let r := traits_compare s lit rlen in
  if r =? 0
  then Z.of_nat (String.length s) - Z.of_nat (String.length lit)
  else r.

(** [operator==] of a [std::string] and a C string. *)
Definition eq_cstr (s lit : string) : bool := compare s lit =? 0.

End CxxString.

(** ** Memory, pointers and outcomes *)

Module Mem.

(** Objects live in blocks; a pointer to an object is its block. *)
Definition block := positive.

Inductive ptr : Type :=
| nullptr : ptr
| Ptr (b : block) : ptr.

(** What a call can end in. *)
Inductive fault : Type :=
| Exception
| Abort
| UndefinedBehaviour.

Inductive outcome (A : Type) : Type :=
| Returns (a : A)
| Fails (f : fault).

Arguments Returns {A} a.
Arguments Fails {A} f.

(** The program state: the byte vectors that exist, by block. *)
Abbreviation store := (gmap positive (list byte)).

(** A computation reads and may change the state, and ends in an outcome. *)
Definition M (A : Type) : Type := store -> outcome A * store.

Definition ret {A} (a : A) : M A := fun σ => (Returns a, σ).

Definition bind {A B} (m : M A) (k : A -> M B) : M B :=
  fun σ =>
    match m σ with
    | (Returns a, σ') => k a σ'
    | (Fails f, σ') => (Fails f, σ')
    end.

(** Reading through a pointer: undefined for the null pointer and for a
    block that holds no object. *)
Definition load (p : ptr) : M (list byte) :=
  fun σ =>
    match p with
    | nullptr => (Fails UndefinedBehaviour, σ)
    | Ptr b =>
        match σ !! b with
        | Some v => (Returns v, σ)
        | None => (Fails UndefinedBehaviour, σ)
        end
    end.

(** Run [f] on each element in turn, threading the state. *)
Fixpoint mapM {A B} (f : A -> M B) (xs : list A) : M (list B) :=
  match xs with
  | [] => ret []
  | x :: xs' =>
      bind (f x) (fun y => bind (mapM f xs') (fun ys => ret (y :: ys)))
  end.

End Mem.

Import Mem.

Notation "'let*' x ':=' m 'in' k" := (bind m (fun x => k))
  (at level 10, x name, m at level 100, k at level 200).

(** ** The header *)

(** [static const std::vector<uint8_t> ding_dong_raw = { 0x00, 0x00, 0x00, 0x00 };]
    the value the object is initialised with. *)
Definition ding_dong_raw : list byte := [x00; x00; x00; x00].

(** The block of the static object [ding_dong_raw]: [&ding_dong_raw]. *)
Definition ding_dong_raw_block : block := 1%positive.

(** The memory right after static initialisation of the translation unit. *)
Definition static_init : store := {[ ding_dong_raw_block := ding_dong_raw ]}.

(** The static object exists and holds its initial value. As the object is
    [const], this holds in every state of a program once it is initialised. *)
Definition initialized (σ : store) : Prop :=
  σ !! ding_dong_raw_block = Some ding_dong_raw.

(** [static const std::vector<uint8_t>* get_sound(const std::string& name)] *)
Definition get_sound (name : string) : M ptr :=
  if CxxString.eq_cstr name "ding_dong" then ret (Ptr ding_dong_raw_block)
  else ret nullptr.

(** ** Callers *)

(** A caller that looks a name up and, when the result is not null, reads the
    bytes through it: what a lookup lets its caller observe. *)
Definition observe_sound (name : string) : M (option (list byte)) :=
  let* p := get_sound name in
  match p with
  | nullptr => ret None
  | Ptr _ => let* v := load p in ret (Some v)
  end.

(** A caller that makes one lookup after the other. *)
Definition get_sounds (names : list string) : M (list ptr) :=
  mapM get_sound names.

Definition observe_sounds (names : list string) : M (list (option (list byte))) :=
  mapM observe_sound names.

(** The registry as the resolver exposes it in state [σ]: the bytes behind
    each name, if any. *)
Definition registry (σ : store) (name : string) : option (list byte) :=
  match get_sound name σ with
  | (Returns (Ptr b), σ') => σ' !! b
  | _ => None
  end.

(** One operation of the component: a lookup with some name. *)
Inductive lookup_step : store -> store -> Prop :=
| lookup_step_call (name : string) (σ : store) :
    lookup_step σ (get_sound name σ).2.

(** ** The table, read off as plain functions

    Not part of the header: the pointer and the bytes each name stands for,
    decided by equality of strings. [get_sound] and [observe_sound] are
    compared with them below. *)
Definition resolve (name : string) : ptr :=
  if decide (name = "ding_dong") then Ptr ding_dong_raw_block else nullptr.

Definition resolve_bytes (name : string) : option (list byte) :=
  if decide (name = "ding_dong") then Some ding_dong_raw else None.

(** ** The string comparison is equality *)

Lemma char_code_inj (a b : ascii) :
  CxxString.char_code a = CxxString.char_code b -> a = b.
Proof.
  unfold CxxString.char_code. intros H.
  apply N2Z.inj in H.
  rewrite <- (ascii_N_embedding a), <- (ascii_N_embedding b).
  by rewrite H.
Qed.

Lemma traits_compare_refl (s : string) (n : nat) :
  CxxString.traits_compare s s n = 0.
Proof.
  revert n. induction s as [|a s IH]; intros [|n]; simpl; try done.
  rewrite Z.ltb_irrefl. apply IH.
Qed.

Lemma traits_compare_eq (s t : string) :
  String.length s = String.length t ->
  CxxString.traits_compare s t (String.length s) = 0 -> s = t.
Proof.
  revert t. induction s as [|a s IH]; intros [|b t]; simpl; try done.
  intros Hlen.
  destruct (Z.ltb_spec (CxxString.char_code a) (CxxString.char_code b)) as [|Hba];
    [done|].
  destruct (Z.ltb_spec (CxxString.char_code b) (CxxString.char_code a)) as [|Hab];
    [done|].
  intros Hcmp. f_equal.
  - apply char_code_inj. lia.
  - apply IH; [lia | done].
Qed.

Lemma eq_cstr_spec (s t : string) :
  CxxString.eq_cstr s t = true <-> s = t.
Proof.
  unfold CxxString.eq_cstr, CxxString.compare. split.
  - intros H. apply Z.eqb_eq in H.
    destruct (Z.eqb_spec
      (CxxString.traits_compare s t
         (Nat.min (String.length s) (String.length t))) 0) as [Hc|Hc];
      [|done].
    assert (Hlen : String.length s = String.length t) by lia.
    rewrite Hlen, Nat.min_id, <- Hlen in Hc.
    by apply traits_compare_eq.
  - intros ->. rewrite traits_compare_refl. simpl. apply Z.eqb_eq. lia.
Qed.

Lemma eq_cstr_false (s t : string) :
  CxxString.eq_cstr s t = false <-> s <> t.
Proof.
  rewrite <- eq_cstr_spec. by destruct (CxxString.eq_cstr s t).
Qed.

(** ** [get_sound], case by case *)

Lemma get_sound_hit (σ : store) :
  get_sound "ding_dong" σ = (Returns (Ptr ding_dong_raw_block), σ).
Proof. reflexivity. Qed.

Lemma get_sound_miss (name : string) (σ : store) :
  name <> "ding_dong" -> get_sound name σ = (Returns nullptr, σ).
Proof.
  intros Hne. unfold get_sound.
  apply eq_cstr_false in Hne. by rewrite Hne.
Qed.

Lemma get_sound_cases (name : string) (σ : store) :
  (name = "ding_dong" /\ get_sound name σ = (Returns (Ptr ding_dong_raw_block), σ))
  \/ (name <> "ding_dong" /\ get_sound name σ = (Returns nullptr, σ)).
Proof.
  destruct (decide (name = "ding_dong")) as [->|Hne].
  - left. split; [done | apply get_sound_hit].
  - right. split; [done | by apply get_sound_miss].
Qed.

Lemma static_init_initialized : initialized static_init.
Proof. unfold initialized, static_init. apply lookup_singleton_eq. Qed.

(** ** A lookup leaves the memory alone and does not depend on it *)

Lemma get_sound_state (name : string) (σ : store) : (get_sound name σ).2 = σ.
Proof. unfold get_sound. by destruct (CxxString.eq_cstr name "ding_dong"). Qed.

Lemma get_sound_result_indep (name : string) (σ1 σ2 : store) :
  (get_sound name σ1).1 = (get_sound name σ2).1.
Proof. unfold get_sound. by destruct (CxxString.eq_cstr name "ding_dong"). Qed.

(** What a caller observes, in a state where the static object exists. *)
Lemma observe_sound_hit (σ : store) :
  initialized σ ->
  observe_sound "ding_dong" σ = (Returns (Some ding_dong_raw), σ).
Proof.
  intros Hinit. unfold observe_sound, bind. rewrite get_sound_hit.
  unfold load. by rewrite Hinit.
Qed.

Lemma observe_sound_miss (name : string) (σ : store) :
  name <> "ding_dong" -> observe_sound name σ = (Returns None, σ).
Proof.
  intros Hne. unfold observe_sound, bind. by rewrite get_sound_miss.
Qed.

Lemma registry_hit (σ : store) :
  registry σ "ding_dong" = σ !! ding_dong_raw_block.
Proof. reflexivity. Qed.

Lemma registry_miss (name : string) (σ : store) :
  name <> "ding_dong" -> registry σ name = None.
Proof. intros Hne. unfold registry. by rewrite get_sound_miss. Qed.

(** ** The scenarios of the specification, by evaluation *)

Example lookup_ding_dong :
  observe_sound "ding_dong" static_init
  = (Returns (Some [x00; x00; x00; x00]), static_init).
Proof. vm_compute. reflexivity. Qed.

Example lookup_empty : get_sound EmptyString static_init = (Returns nullptr, static_init).
Proof. reflexivity. Qed.

Example lookup_upper_case :
  get_sound "DING_DONG" static_init = (Returns nullptr, static_init).
Proof. reflexivity. Qed.

Example lookup_mixed_case :
  get_sound "Ding_Dong" static_init = (Returns nullptr, static_init).
Proof. reflexivity. Qed.

Example lookup_prefix :
  get_sound "ding" static_init = (Returns nullptr, static_init).
Proof. reflexivity. Qed.

Example lookup_longer :
  get_sound "ding_dong_" static_init = (Returns nullptr, static_init).
Proof. reflexivity. Qed.

(** A [std::string] that continues after an embedded NUL is not the key. *)
Example lookup_embedded_nul :
  get_sound ("ding_dong" ++ String zero "x") static_init
  = (Returns nullptr, static_init).
Proof. reflexivity. Qed.

(** ** The claims *)

(** C1: a lookup with exactly the key ding_dong returns a present result (a
    non-null pointer), and the byte sequence behind it is exactly the four
    zero bytes 0x00, 0x00, 0x00, 0x00, of length 4. *)
Theorem get_sound_ding_dong (σ : store) :
  initialized σ ->
  exists (b : block) (v : list byte),
    get_sound "ding_dong" σ = (Returns (Ptr b), σ)
    /\ σ !! b = Some v
    /\ observe_sound "ding_dong" σ = (Returns (Some v), σ)
    /\ v = [x00; x00; x00; x00]
    /\ length v = 4%nat.
Proof.
  intros Hinit. exists ding_dong_raw_block, ding_dong_raw.
  split; [apply get_sound_hit|].
  split; [exact Hinit|].
  split; [by apply observe_sound_hit|].
  split; reflexivity.
Qed.

Lemma get_sound_ding_dong_witness :
  initialized static_init
  /\ exists (b : block) (v : list byte),
       get_sound "ding_dong" static_init = (Returns (Ptr b), static_init)
       /\ static_init !! b = Some v
       /\ observe_sound "ding_dong" static_init = (Returns (Some v), static_init)
       /\ v = [x00; x00; x00; x00]
       /\ length v = 4%nat.
Proof.
  split.
  - vm_compute. reflexivity.
  - apply (get_sound_ding_dong static_init). vm_compute. reflexivity.
Defined.

(** C2: for every string that is not equal to ding_dong (the empty string,
    case variants and substrings of the key among them) the lookup returns
    the absent result, the null pointer: the whole string is compared,
    character by character, with the one key. *)
Theorem get_sound_other_name (name : string) (σ : store) :
  name <> "ding_dong" ->
  get_sound name σ = (Returns nullptr, σ)
  /\ observe_sound name σ = (Returns None, σ)
  /\ CxxString.eq_cstr name "ding_dong" = false.
Proof.
  intros Hne. split; [by apply get_sound_miss|].
  split; [by apply observe_sound_miss|].
  by apply eq_cstr_false.
Qed.

Lemma get_sound_other_name_witness :
  "DING_DONG" <> "ding_dong"
  /\ get_sound "DING_DONG" static_init = (Returns nullptr, static_init)
  /\ observe_sound "DING_DONG" static_init = (Returns None, static_init)
  /\ CxxString.eq_cstr "DING_DONG" "ding_dong" = false.
Proof.
  split.
  - discriminate.
  - apply (get_sound_other_name "DING_DONG" static_init). discriminate.
Defined.

(** C4: that no name matches is signalled by the null pointer and by nothing
    else: for every input the call returns normally, never with an
    exception, an abort or undefined behaviour, and the returned pointer is
    null exactly when the name is not the key. *)
Theorem not_found_is_nullptr (name : string) (σ : store) :
  (forall f : fault, (get_sound name σ).1 <> Fails f)
  /\ ((get_sound name σ).1 = Returns nullptr <-> name <> "ding_dong").
Proof.
  destruct (get_sound_cases name σ) as [[-> Hg]|[Hne Hg]]; rewrite Hg; simpl.
  - split; [done|]. split; [done|]. intros H. by destruct H.
  - split; [done|]. by split.
Qed.

(** C5: the lookup is pure and deterministic: the program state after the
    call is the state before it, and the result is the same in whatever
    state the call is made, so two runs on the same input agree. *)
Theorem get_sound_pure (name : string) (σ1 σ2 : store) :
  (get_sound name σ1).2 = σ1
  /\ (get_sound name σ2).2 = σ2
  /\ (get_sound name σ1).1 = (get_sound name σ2).1.
Proof.
  split; [apply get_sound_state|].
  split; [apply get_sound_state|].
  apply get_sound_result_indep.
Qed.

(** C7: the lookup is total: for every string, of any length and content,
    the call returns normally with a pointer, null or not; no input is
    rejected and none reaches an error or an undefined outcome. *)
Theorem get_sound_total (name : string) (σ : store) :
  exists p : ptr, get_sound name σ = (Returns p, σ).
Proof.
  destruct (get_sound_cases name σ) as [[_ Hg]|[_ Hg]]; rewrite Hg; eauto.
Qed.

(** ** Sequences of lookups *)

Lemma lookup_steps_state (σ σ' : store) : rtc lookup_step σ σ' -> σ' = σ.
Proof.
  induction 1 as [|σ0 σ1 σ2 Hstep _ IH]; [done|].
  destruct Hstep as [name σ0]. by rewrite IH, get_sound_state.
Qed.

(** A computation that returns [g x] and leaves the state [σ] as it is, for
    each [x], does so along a whole list. *)
Lemma mapM_pure {A B} (f : A -> M B) (g : A -> B) (σ : store) (xs : list A) :
  (forall x, f x σ = (Returns (g x), σ)) ->
  mapM f xs σ = (Returns (g <$> xs), σ).
Proof.
  intros Hf. induction xs as [|x xs IH]; [done|].
  simpl. unfold bind at 1. rewrite Hf.
  unfold bind at 1. by rewrite IH.
Qed.

Lemma get_sound_resolve (name : string) (σ : store) :
  get_sound name σ = (Returns (resolve name), σ).
Proof.
  unfold resolve. destruct (decide (name = "ding_dong")) as [->|Hne].
  - apply get_sound_hit.
  - by apply get_sound_miss.
Qed.

Lemma observe_sound_resolve (name : string) (σ : store) :
  initialized σ -> observe_sound name σ = (Returns (resolve_bytes name), σ).
Proof.
  intros Hinit. unfold resolve_bytes.
  destruct (decide (name = "ding_dong")) as [->|Hne].
  - by apply observe_sound_hit.
  - by apply observe_sound_miss.
Qed.

Lemma get_sound_depends_on_match (n1 n2 : string) (σ1 σ2 : store) :
  (n1 = "ding_dong" <-> n2 = "ding_dong") ->
  (get_sound n1 σ1).1 = (get_sound n2 σ2).1.
Proof.
  intros Hiff. rewrite !get_sound_resolve. simpl. unfold resolve.
  destruct (decide (n1 = "ding_dong")), (decide (n2 = "ding_dong"));
    tauto.
Qed.

(** C3: the content of the registry is invariant under the operations of
    the component: after any sequence of lookups, with any names, the memory
    is the one before it, the key set is still exactly the one key
    ding_dong, and each name resolves to the same bytes as before. *)
Theorem registry_invariant (σ σ' : store) :
  initialized σ ->
  rtc lookup_step σ σ' ->
  σ' = σ
  /\ (forall name : string, is_Some (registry σ' name) <-> name = "ding_dong")
  /\ (forall name : string, registry σ' name = registry σ name)
  /\ registry σ' "ding_dong" = Some ding_dong_raw.
Proof.
  intros Hinit Hsteps. apply lookup_steps_state in Hsteps as ->.
  split; [done|]. split; [|split; [done|]].
  - intros name. destruct (decide (name = "ding_dong")) as [->|Hne].
    + rewrite registry_hit, Hinit. split; [done|]. by eexists.
    + rewrite registry_miss by done. split; [|done].
      intros [v Hv]. discriminate.
  - by rewrite registry_hit.
Qed.

Lemma registry_invariant_witness :
  initialized static_init
  /\ rtc lookup_step static_init
       (get_sound "nope" (get_sound "ding_dong" static_init).2).2
  /\ (get_sound "nope" (get_sound "ding_dong" static_init).2).2 = static_init.
Proof.
  assert (Hinit : initialized static_init) by (vm_compute; reflexivity).
  assert (Hsteps : rtc lookup_step static_init
            (get_sound "nope" (get_sound "ding_dong" static_init).2).2).
  { eapply rtc_l; [apply (lookup_step_call "ding_dong")|].
    eapply rtc_l; [apply (lookup_step_call "nope")|]. apply rtc_refl. }
  split; [exact Hinit|]. split; [exact Hsteps|].
  exact (proj1 (registry_invariant static_init _ Hinit Hsteps)).
Defined.

(** C6: repeated lookups with the key ding_dong are idempotent: in any
    sequence of lookups, any two calls made with ding_dong return the same
    pointer, and the bytes read through it at the two calls are equal (the
    four zero bytes). *)
Theorem repeated_lookups_identical
    (names : list string) (i j : nat) (σ : store) :
  initialized σ ->
  names !! i = Some "ding_dong" ->
  names !! j = Some "ding_dong" ->
  exists (ps : list ptr) (obs : list (option (list byte))),
    get_sounds names σ = (Returns ps, σ)
    /\ observe_sounds names σ = (Returns obs, σ)
    /\ ps !! i = Some (Ptr ding_dong_raw_block)
    /\ ps !! j = ps !! i
    /\ obs !! i = Some (Some ding_dong_raw)
    /\ obs !! j = obs !! i.
Proof.
  intros Hinit Hi Hj.
  exists (resolve <$> names), (resolve_bytes <$> names).
  split.
  { apply mapM_pure. intros name. apply get_sound_resolve. }
  split.
  { apply mapM_pure. intros name. by apply observe_sound_resolve. }
  rewrite !list_lookup_fmap, Hi, Hj. by repeat split.
Qed.

Lemma repeated_lookups_identical_witness :
  exists (ps : list ptr) (obs : list (option (list byte))),
    get_sounds ["ding_dong"; "ding"; "ding_dong"] static_init
      = (Returns ps, static_init)
    /\ observe_sounds ["ding_dong"; "ding"; "ding_dong"] static_init
      = (Returns obs, static_init)
    /\ ps !! 0%nat = Some (Ptr ding_dong_raw_block)
    /\ ps !! 2%nat = ps !! 0%nat
    /\ obs !! 0%nat = Some (Some ding_dong_raw)
    /\ obs !! 2%nat = obs !! 0%nat.
Proof.
  apply (repeated_lookups_identical
           ["ding_dong"; "ding"; "ding_dong"] 0 2 static_init).
  - vm_compute. reflexivity.
  - reflexivity.
  - reflexivity.
Defined.

(** C9: the result of a lookup is one of exactly two values, the null
    pointer or the address of the one static object ding_dong_raw: both
    occur, no call creates an object, and any two lookups that return a
    non-null pointer return the same pointer. *)
Theorem get_sound_range :
  (forall (name : string) (σ : store),
      get_sound name σ = (Returns nullptr, σ)
      \/ get_sound name σ = (Returns (Ptr ding_dong_raw_block), σ))
  /\ (forall σ : store, get_sound EmptyString σ = (Returns nullptr, σ))
  /\ (forall σ : store,
        get_sound "ding_dong" σ = (Returns (Ptr ding_dong_raw_block), σ))
  /\ (forall (n1 n2 : string) (σ1 σ2 : store) (b1 b2 : block),
        (get_sound n1 σ1).1 = Returns (Ptr b1) ->
        (get_sound n2 σ2).1 = Returns (Ptr b2) ->
        b1 = b2).
Proof.
  split; [|split; [|split]].
  - intros name σ.
    destruct (get_sound_cases name σ) as [[_ Hg]|[_ Hg]]; auto.
  - intros σ. reflexivity.
  - intros σ. apply get_sound_hit.
  - intros n1 n2 σ1 σ2 b1 b2. rewrite !get_sound_resolve. simpl.
    unfold resolve.
    destruct (decide (n1 = "ding_dong")), (decide (n2 = "ding_dong"));
      congruence.
Qed.

(** C10: the outcome depends only on whether the input is ding_dong: any two
    inputs that both differ from ding_dong get equal results, the null
    pointer, whatever their length or content and in whatever state. *)
Theorem get_sound_unknown_names_agree (n1 n2 : string) (σ1 σ2 : store) :
  n1 <> "ding_dong" ->
  n2 <> "ding_dong" ->
  (get_sound n1 σ1).1 = (get_sound n2 σ2).1
  /\ (get_sound n1 σ1).1 = Returns nullptr.
Proof.
  intros H1 H2. split.
  - apply get_sound_depends_on_match. tauto.
  - by rewrite get_sound_miss.
Qed.

Lemma get_sound_unknown_names_agree_witness :
  "ding" <> "ding_dong"
  /\ "a much longer name, ding_dong included" <> "ding_dong"
  /\ (get_sound "ding" static_init).1
     = (get_sound "a much longer name, ding_dong included" ∅).1
  /\ (get_sound "ding" static_init).1 = Returns nullptr.
Proof.
  split; [discriminate|]. split; [discriminate|].
  apply (get_sound_unknown_names_agree
           "ding" "a much longer name, ding_dong included" static_init ∅);
    discriminate.
Defined.


(** ** Further properties of the resolver *)

Lemma length_ne_key (name : string) :
  String.length name <> 9%nat -> name <> "ding_dong".
Proof. intros Hlen ->. by apply Hlen. Qed.

Lemma load_static (σ : store) :
  initialized σ ->
  load (Ptr ding_dong_raw_block) σ = (Returns ding_dong_raw, σ).
Proof. intros Hinit. unfold load. by rewrite Hinit. Qed.

(** X1: a non-null result is always safe to read and is only given for the
    key: in a state where the static object holds its initial value, whenever
    [get_sound] returns a non-null pointer, the name was exactly ding_dong,
    and reading through the pointer succeeds with the four zero bytes. *)
Theorem get_sound_nonnull_valid (name : string) (σ : store) (b : block) :
  initialized σ ->
  (get_sound name σ).1 = Returns (Ptr b) ->
  name = "ding_dong"
  /\ load (Ptr b) σ = (Returns [x00; x00; x00; x00], σ).
Proof.
  intros Hinit Hres.
  destruct (get_sound_cases name σ) as [[-> Hg]|[_ Hg]];
    rewrite Hg in Hres; simpl in Hres; [|discriminate].
  injection Hres as <-. split; [done|]. by apply load_static.
Qed.

Lemma get_sound_nonnull_valid_witness :
  initialized static_init
  /\ (get_sound "ding_dong" static_init).1 = Returns (Ptr 1%positive)
  /\ "ding_dong" = "ding_dong"
  /\ load (Ptr 1%positive) static_init
     = (Returns [x00; x00; x00; x00], static_init).
Proof.
  split; [vm_compute; reflexivity|]. split; [reflexivity|].
  apply (get_sound_nonnull_valid "ding_dong" static_init 1%positive).
  - vm_compute. reflexivity.
  - reflexivity.
Defined.



(** X3: lookups made one after the other do not influence each other: for
    any list of names the batch returns normally, with one pointer per name
    (none for the empty list), the pointer at each position is the one the
    lookup of that name gives when made alone in the starting state, and
    the memory is unchanged. *)
Theorem get_sounds_pointwise (names : list string) (σ : store) :
  exists ps : list ptr,
    get_sounds names σ = (Returns ps, σ)
    /\ length ps = length names
    /\ forall (i : nat) (name : string),
         names !! i = Some name ->
         exists p : ptr,
           ps !! i = Some p /\ get_sound name σ = (Returns p, σ).
Proof.
  exists (resolve <$> names). split.
  { apply mapM_pure. intros name. apply get_sound_resolve. }
  split; [apply length_fmap|].
  intros i name Hi. exists (resolve name). split.
  - by rewrite list_lookup_fmap, Hi.
  - apply get_sound_resolve.
Qed.

(** X4: the sizes are compared, so there is no matching of prefixes or of
    longer names: a name whose length is not 9, the length of ding_dong, is
    never found, whatever its characters. *)
Theorem get_sound_length_filter (name : string) (σ : store) :
  String.length name <> 9%nat ->
  get_sound name σ = (Returns nullptr, σ).
Proof.
  intros Hlen. apply get_sound_miss. by apply length_ne_key.
Qed.

Lemma get_sound_length_filter_witness :
  String.length "ding_dong.raw" <> 9%nat
  /\ get_sound "ding_dong.raw" static_init = (Returns nullptr, static_init).
Proof.
  split; [discriminate|].
  apply (get_sound_length_filter "ding_dong.raw" static_init). discriminate.
Defined.
